(** * greeclimate: the protocol codec, the session protocol and the device facade

    Shallow embedding of [greeclimate/device.py] (the [Device] facade) and of
    the protocol operations it consumes ([bind_device], [request_state],
    [send_state] and the payload codec).  The protocol module itself
    ([greeclimate.network_helper]) is not embedded from code: the parts of it
    the development needs are modelled from the specification and marked as
    such. *)

From Stdlib Require Import String Ascii List ZArith Bool Lia.
#[global] Set Warnings "-register-all".
Import ListNotations.
Open Scope string_scope.
Open Scope Z_scope.
Open Scope list_scope.

(** ** Wire values *)

(** JSON values as carried in the encrypted [pack] field.  Numbers are the
    integers the protocol exchanges. *)
Inductive json : Type :=
| JNull
| JBool (b : bool)
| JNum (z : Z)
| JStr (s : string)
| JArr (xs : list json)
| JObj (fields : list (string * json)).

(** Field access on a JSON object: [obj.get(name)]. *)
Definition field (name : string) (j : json) : option json :=
  match j with
  | JObj fs =>
      match find (fun kv => String.eqb (fst kv) name) fs with
      | Some (_, v) => Some v
      | None => None
      end
  | _ => None
  end.

(** Errors raised along the paths modelled here. *)
Inductive error : Type :=
| TimeoutError
| BindingTimeoutError
| DecryptionError
| ProtocolError
| DeviceNotBoundError
| TypeError
| ValueError.

Inductive result (A : Type) : Type :=
| Ok (a : A)
| Err (e : error).
Arguments Ok {A} a.
Arguments Err {A} e.

Definition rbind {A B} (r : result A) (k : A -> result B) : result B :=
  match r with
  | Ok a => k a
  | Err e => Err e
  end.

Notation "x <-? r ;; k" := (rbind r (fun x => k))
  (at level 61, r at next level, right associativity).

(** ** Codec *)

Module Codec.

(** Modelled from the spec: the payload codec of the protocol module
    ([encrypt_payload] / [decrypt_payload]), which is not in the sources.
    §4.1: the plaintext structure is serialised to a canonical text form,
    encrypted with a symmetric block cipher in a mode with no initialisation
    vector (each 16-byte block enciphered on its own under the key), and the
    cipher bytes are given a text-safe encoding.  Decryption is the inverse and
    fails with [DecryptionError] on malformed cipher text, invalid padding or
    an unparseable result.  Bytes are 8-bit values held in [Z]; the padding is
    PKCS#7 to the 16-byte block size. *)

Definition block_size : nat := 16.

Section Codec.

(** The block cipher: one 16-byte block under a key. *)
Variable block_encrypt block_decrypt : string -> list Z -> list Z.
Hypothesis block_encrypt_length :
  forall k b, length b = block_size -> length (block_encrypt k b) = block_size.
Hypothesis block_decrypt_encrypt :
  forall k b, length b = block_size -> block_decrypt k (block_encrypt k b) = b.

(** The canonical serialisation of a structure and its parser. *)
Variable serialize : json -> list Z.
Variable parse : list Z -> option json.
Variable valid : json -> Prop.
Hypothesis parse_serialize : forall p, valid p -> parse (serialize p) = Some p.

(** The text-safe encoding of the cipher bytes. *)
Context {text : Type}.
Variable text_encode : list Z -> text.
Variable text_decode : text -> option (list Z).
Hypothesis text_decode_encode : forall bs, text_decode (text_encode bs) = Some bs.

(** PKCS#7 padding: [n] bytes of value [n], [1 <= n <= 16]. *)
Definition pad (bs : list Z) : list Z :=
  let n := (block_size - length bs mod block_size)%nat in
  bs ++ repeat (Z.of_nat n) n.

Definition unpad (bs : list Z) : option (list Z) :=
  match rev bs with
  | [] => None
  | last :: _ =>
      let n := Z.to_nat last in
      if (1 <=? last) && (last <=? Z.of_nat block_size)
         && (n <=? length bs)%nat
         && forallb (Z.eqb last) (firstn n (rev bs))
      then Some (firstn (length bs - n) bs)
      else None
  end.

(** Splitting into blocks of [block_size] bytes; [fuel] bounds the number of
    blocks. *)
Fixpoint blocks_aux (fuel : nat) (bs : list Z) : list (list Z) :=
  match fuel with
  | O => []
  | S f =>
      match bs with
      | [] => []
      | _ => firstn block_size bs :: blocks_aux f (skipn block_size bs)
      end
  end.

Definition blocks (bs : list Z) : list (list Z) := blocks_aux (length bs) bs.

(** Electronic-codebook mode: each block enciphered on its own. *)
Definition ecb_encrypt (k : string) (bs : list Z) : list Z :=
  concat (map (block_encrypt k) (blocks bs)).

Definition ecb_decrypt (k : string) (bs : list Z) : list Z :=
  concat (map (block_decrypt k) (blocks bs)).

Definition encrypt (p : json) (k : string) : text :=
  text_encode (ecb_encrypt k (pad (serialize p))).

Definition decrypt (c : text) (k : string) : result json :=
  match text_decode c with
  | None => Err DecryptionError
  | Some bs =>
      if (length bs mod block_size =? 0)%nat then
        match unpad (ecb_decrypt k bs) with
        | None => Err DecryptionError
        | Some plain =>
            match parse plain with
            | Some p => Ok p
            | None => Err DecryptionError
            end
        end
      else Err DecryptionError
  end.

End Codec.
End Codec.

(** ** Property maps *)

(** A property value as the protocol carries it (string or number, JSON
    [true]/[false]) together with Python's [None]. *)
Inductive pvalue : Type :=
| PNone
| PBool (b : bool)
| PInt (z : Z)
| PStr (s : string).

(** A [PropertyMap] is a Python [dict] from property name to value: an
    association list with at most one entry per name, in insertion order. *)
Definition PropertyMap : Type := list (string * pvalue).

(** [d.get(k)]: the value stored for [k], [None] when absent. *)
Definition dict_get (m : PropertyMap) (k : string) : pvalue :=
  match find (fun kv => String.eqb (fst kv) k) m with
  | Some (_, v) => v
  | None => PNone
  end.

(** [d[k] = v]: overwrite in place when [k] is present, append otherwise. *)
Fixpoint dict_set (m : PropertyMap) (k : string) (v : pvalue) : PropertyMap :=
  match m with
  | [] => [(k, v)]
  | (k', v') :: m' =>
      if String.eqb k' k then (k', v) :: m' else (k', v') :: dict_set m' k v
  end.

(** [dict(pairs)]: later pairs overwrite earlier ones. *)
Definition dict_of_pairs (kvs : list (string * pvalue)) : PropertyMap :=
  fold_left (fun m kv => dict_set m (fst kv) (snd kv)) kvs [].

(** Python [==] on property values ([True == 1], [False == 0]). *)
Definition py_eq (a b : pvalue) : bool :=
  match a, b with
  | PNone, PNone => true
  | PBool x, PBool y => Bool.eqb x y
  | PBool x, PInt z | PInt z, PBool x => Z.eqb (Z.b2z x) z
  | PInt x, PInt y => Z.eqb x y
  | PStr x, PStr y => String.eqb x y
  | _, _ => false
  end.

(** Python [bool(v)]. *)
Definition py_bool (v : pvalue) : bool :=
  match v with
  | PNone => false
  | PBool b => b
  | PInt z => negb (Z.eqb z 0)
  | PStr s => negb (String.eqb s "")
  end.

Definition digit_value (c : ascii) : option Z :=
  let n := nat_of_ascii c in
  if ((48 <=? n) && (n <=? 57))%nat then Some (Z.of_nat (n - 48)) else None.

Fixpoint digits_value (acc : Z) (s : string) : option Z :=
  match s with
  | EmptyString => Some acc
  | String c s' =>
      match digit_value c with
      | Some d => digits_value (acc * 10 + d) s'
      | None => None
      end
  end.

(** [int(s)] for a string: an optional sign followed by decimal digits.
    Surrounding whitespace and digit-group underscores, which Python also
    accepts, are not modelled. *)
Definition int_of_string (s : string) : result Z :=
  let unsigned (t : string) :=
    match t with
    | EmptyString => Err ValueError
    | _ => match digits_value 0 t with Some z => Ok z | None => Err ValueError end
    end in
  match s with
  | String "-" t => rbind (unsigned t) (fun z => Ok (- z))
  | String "+" t => unsigned t
  | _ => unsigned s
  end.

(** Python [int(v)]: [int(None)] raises [TypeError]. *)
Definition py_int (v : pvalue) : result Z :=
  match v with
  | PNone => Err TypeError
  | PBool b => Ok (Z.b2z b)
  | PInt z => Ok z
  | PStr s => int_of_string s
  end.

(** ** Device identity *)

(** [DeviceInfo]: address, hardware identifier and optional name. *)
Record DeviceInfo : Type := {
  ip : string;
  port : Z;
  mac : string;
  name : option string
}.

(** ** Session protocol *)

Module Session.

(** Modelled from the spec: [bind_device], [request_state] and [send_state]
    of the protocol module, which is not in the sources (§4.4, §6).  Each
    operation sends one request and performs one timeout-bound receive on a
    point-to-point stream to the device; the request's [pack] is encrypted and
    the reply's [pack] decrypted with the given key.  An [Exchange] is that
    round trip seen from the caller: [ex key request] is [None] when no reply
    arrives within the window, [Some None] when the reply does not decrypt
    under [key], and [Some (Some p)] when it decrypts to the structure [p]. *)
Definition Exchange : Type := string -> json -> option (option json).

Definition recv_pack (ex : Exchange) (key : string) (req : json)
  (on_timeout : error) : result json :=
  match ex key req with
  | None => Err on_timeout
  | Some None => Err DecryptionError
  | Some (Some p) => Ok p
  end.

Definition json_of_value (v : pvalue) : json :=
  match v with
  | PNone => JNull
  | PBool b => JBool b
  | PInt z => JNum z
  | PStr s => JStr s
  end.

Definition value_of_json (j : json) : option pvalue :=
  match j with
  | JNull => Some PNone
  | JBool b => Some (PBool b)
  | JNum z => Some (PInt z)
  | JStr s => Some (PStr s)
  | _ => None
  end.

Fixpoint strings_of (js : list json) : option (list string) :=
  match js with
  | [] => Some []
  | JStr s :: js' =>
      match strings_of js' with Some ss => Some (s :: ss) | None => None end
  | _ :: _ => None
  end.

Fixpoint values_of (js : list json) : option (list pvalue) :=
  match js with
  | [] => Some []
  | j :: js' =>
      match value_of_json j, values_of js' with
      | Some v, Some vs => Some (v :: vs)
      | _, _ => None
      end
  end.

(** The reply's command type: a reply that names a type other than the
    expected one is a protocol error (a reply carrying no [t] is taken as
    the §6 status response shape, which lists none). *)
Definition type_is (expected : string) (p : json) : bool :=
  match field "t" p with
  | None => true
  | Some (JStr t) => String.eqb t expected
  | Some _ => false
  end.

(** Zip the reply's name list and value list by position into a map; lists
    of different lengths or of the wrong shape are a protocol error (§3). *)
Definition zip_reply (names_field values_field : string) (p : json)
  : result PropertyMap :=
  match field names_field p, field values_field p with
  | Some (JArr ns), Some (JArr vs) =>
      match strings_of ns, values_of vs with
      | Some ns', Some vs' =>
          if Nat.eqb (length ns') (length vs')
          then Ok (dict_of_pairs (combine ns' vs'))
          else Err ProtocolError
      | _, _ => Err ProtocolError
      end
  | _, _ => Err ProtocolError
  end.

Definition bind_request (info : DeviceInfo) : json :=
  JObj [("mac", JStr (mac info)); ("t", JStr "bind")].

Definition status_request (names : list string) (info : DeviceInfo) : json :=
  JObj [("cols", JArr (map JStr names)); ("mac", JStr (mac info));
        ("t", JStr "status")].

Definition cmd_request (pm : PropertyMap) : json :=
  JObj [("opt", JArr (map (fun kv => JStr (fst kv)) pm));
        ("p", JArr (map (fun kv => json_of_value (snd kv)) pm));
        ("t", JStr "cmd")].

(** [bind_device(device_info)]: the bind exchange under the generic key. *)
Definition bind_device (ex : Exchange) (generic_key : string) (info : DeviceInfo)
  : result string :=
  p <-? recv_pack ex generic_key (bind_request info) BindingTimeoutError ;;
  match field "t" p, field "key" p with
  | Some (JStr t), Some (JStr k) =>
      if String.eqb t "bindok" then Ok k else Err ProtocolError
  | _, _ => Err ProtocolError
  end.

(** [request_state(properties, device_info, key)]. *)
Definition request_state (ex : Exchange) (names : list string)
  (info : DeviceInfo) (key : string) : result PropertyMap :=
  p <-? recv_pack ex key (status_request names info) TimeoutError ;;
  if type_is "dat" p then zip_reply "cols" "dat" p else Err ProtocolError.

(** [send_state(property_values, device_info, key)]. *)
Definition send_state (ex : Exchange) (pm : PropertyMap)
  (info : DeviceInfo) (key : string) : result PropertyMap :=
  p <-? recv_pack ex key (cmd_request pm) TimeoutError ;;
  zip_reply "opt" "val" p.

End Session.

(** ** Device facade ([greeclimate/device.py]) *)

Module Facade.

(** Modelled from the spec: the [Props] enumeration of the protocol module,
    which is not in the sources (§9: the device's property names are a closed,
    known vocabulary).  Its members are the ones [device.py] uses; the wire
    string of each member ([x.value]) is a parameter [Props_value] of the
    facade below, and [all_Props] is the iteration order of [for x in Props]. *)
Inductive Props : Type :=
| POWER | MODE | TEMP_SET | TEMP_UNIT | FAN_SPEED | FRESH_AIR | XFAN | ANION
| SLEEP | LIGHT | SWING_HORIZ | SWING_VERT | QUIET | TURBO | STEADY_HEAT
| POWER_SAVE.

Definition all_Props : list Props :=
  [POWER; MODE; TEMP_SET; TEMP_UNIT; FAN_SPEED; FRESH_AIR; XFAN; ANION;
   SLEEP; LIGHT; SWING_HORIZ; SWING_VERT; QUIET; TURBO; STEADY_HEAT;
   POWER_SAVE].

(** The three calls [device.py] makes into the protocol module
    ([nethelper.bind_device], [nethelper.request_state],
    [nethelper.send_state]), as they are called: [device_key] is passed as
    it is stored, possibly [None]. *)
Record NetHelper : Type := {
  nh_bind_device : DeviceInfo -> result string;
  nh_request_state : list string -> DeviceInfo -> option string -> result PropertyMap;
  nh_send_state : PropertyMap -> DeviceInfo -> option string -> result PropertyMap
}.

(** A call into the protocol module, the only way the facade reaches the
    network. *)
Inductive net_call : Type :=
| CallBindDevice (info : DeviceInfo)
| CallRequestState (props : list string) (info : DeviceInfo) (key : option string)
| CallSendState (pm : PropertyMap) (info : DeviceInfo) (key : option string).

(** The attributes of a [Device] object. *)
Record Device : Type := {
  device_info : DeviceInfo;
  device_key : option string;
  _properties : option PropertyMap
}.

Definition set_device_key (d : Device) (k : option string) : Device :=
  {| device_info := device_info d; device_key := k; _properties := _properties d |}.

Definition set_properties (d : Device) (p : option PropertyMap) : Device :=
  {| device_info := device_info d; device_key := device_key d; _properties := p |}.

(** Methods run in a state, error and call-trace monad: the object's
    attributes are the state, a raised exception leaves the attributes as
    they were when it was raised, and the trace lists the protocol calls in
    order. *)
Definition DevM (A : Type) : Type := Device -> list net_call * Device * result A.

Definition ret {A} (a : A) : DevM A := fun d => ([], d, Ok a).

Definition bindM {A B} (m : DevM A) (k : A -> DevM B) : DevM B :=
  fun d =>
    match m d with
    | (c1, d1, Ok a) =>
        match k a d1 with
        | (c2, d2, r) => (c1 ++ c2, d2, r)
        end
    | (c1, d1, Err e) => (c1, d1, Err e)
    end.

Definition get_self : DevM Device := fun d => ([], d, Ok d).
Definition put_self (d' : Device) : DevM unit := fun _ => ([], d', Ok tt).
Definition raise {A} (e : error) : DevM A := fun d => ([], d, Err e).

(** Call the protocol module; [r] is what the call returns or raises. *)
Definition net {A} (c : net_call) (r : result A) : DevM A := fun d => ([c], d, r).

Notation "x <- m ;; k" := (bindM m (fun x => k))
  (at level 61, m at next level, right associativity).
Notation "m ;;; k" := (bindM m (fun _ => k))
  (at level 61, right associativity).

(** The outcome of a call whose return value is discarded. *)
Definition to_unit {A} (r : result A) : result unit :=
  match r with
  | Ok _ => Ok tt
  | Err e => Err e
  end.

(** Python truthiness of [device_key] and of [_properties]. *)
Definition truthy_key (k : option string) : bool :=
  match k with
  | Some s => negb (String.eqb s "")
  | None => false
  end.

Definition truthy_props (p : option PropertyMap) : bool :=
  match p with
  | Some (_ :: _) => true
  | _ => false
  end.

Section Facade.

Variable Props_value : Props -> string.
Variable nh : NetHelper.

(** [Device(device_info)]. *)
Definition new_Device (info : DeviceInfo) : Device :=
  {| device_info := info; device_key := None; _properties := None |}.

(** [Device.bind(key=None)]. *)
Definition bind (key : option string) : DevM unit :=
  self <- get_self ;;
  if truthy_key key then put_self (set_device_key self key)
  else
    k <- net (CallBindDevice (device_info self)) (nh_bind_device nh (device_info self)) ;;
    self <- get_self ;;
    put_self (set_device_key self (Some k)).

(** [Device.update_state()]. *)
Definition update_state : DevM unit :=
  self <- get_self ;;
  if negb (truthy_key (device_key self)) then raise DeviceNotBoundError
  else
    let props := map Props_value all_Props in
    m <- net (CallRequestState props (device_info self) (device_key self))
             (nh_request_state nh props (device_info self) (device_key self)) ;;
    self <- get_self ;;
    put_self (set_properties self (Some m)).

(** [Device.get_property(name)]. *)
Definition get_property (name : Props) (self : Device) : pvalue :=
  match _properties self with
  | Some ((_ :: _) as m) => dict_get m (Props_value name)
  | _ => PNone
  end.

(** [self._properties] once it is known to be a dict. *)
Definition props_dict (self : Device) : PropertyMap :=
  match _properties self with
  | Some m => m
  | None => []
  end.

(** [Device.set_property(name, value)]. *)
Definition set_property (name : Props) (value : pvalue) : DevM unit :=
  self <- get_self ;;
  (if truthy_props (_properties self) then ret tt
   else put_self (set_properties self (Some []))) ;;;
  self <- get_self ;;
  if py_eq (dict_get (props_dict self) (Props_value name)) value then ret tt
  else
    put_self (set_properties self
                (Some (dict_set (props_dict self) (Props_value name) value))) ;;;
    self <- get_self ;;
    _ <- net (CallSendState [(Props_value name, value)] (device_info self) (device_key self))
             (nh_send_state nh [(Props_value name, value)] (device_info self)
                (device_key self)) ;;
    ret tt.

(** The read accessors ([@property] getters). *)
Definition power (self : Device) : bool := py_bool (get_property POWER self).
Definition mode (self : Device) : result Z := py_int (get_property MODE self).
Definition target_temperature (self : Device) : result Z :=
  py_int (get_property TEMP_SET self).
Definition temperature_units (self : Device) : result Z :=
  py_int (get_property TEMP_UNIT self).
Definition fan_speed (self : Device) : result Z := py_int (get_property FAN_SPEED self).
Definition fresh_air (self : Device) : bool := py_bool (get_property FRESH_AIR self).
Definition xfan (self : Device) : bool := py_bool (get_property XFAN self).
Definition anion (self : Device) : bool := py_bool (get_property ANION self).
Definition sleep (self : Device) : bool := py_bool (get_property SLEEP self).
Definition light (self : Device) : bool := py_bool (get_property LIGHT self).
Definition horizontal_swing (self : Device) : result Z :=
  py_int (get_property SWING_HORIZ self).
Definition vertical_swing (self : Device) : result Z :=
  py_int (get_property SWING_VERT self).
Definition quiet (self : Device) : bool := py_bool (get_property QUIET self).
Definition turbo (self : Device) : bool := py_bool (get_property TURBO self).
Definition steady_heat (self : Device) : bool := py_bool (get_property STEADY_HEAT self).
Definition power_save (self : Device) : bool := py_bool (get_property POWER_SAVE self).

(** The boolean-typed and the integer-typed accessors. *)
Definition bool_accessors : list (Device -> bool) :=
  [power; fresh_air; xfan; anion; sleep; light; quiet; turbo; steady_heat;
   power_save].
Definition int_accessors : list (Device -> result Z) :=
  [mode; target_temperature; temperature_units; fan_speed; horizontal_swing;
   vertical_swing].







End Facade.
End Facade.

(** ** Sample inputs

    Concrete instances used to exercise the statements below: a device
    address, a keyed stand-in for the block cipher (byte-wise exclusive or),
    a one-number serialiser, the wire names of [Props] spelled as the member
    names, and protocol calls with fixed results. *)
Module Samples.
Import Facade.

Definition info0 : DeviceInfo :=
  {| ip := "192.168.1.20"; port := 7000; mac := "f4911e7aca59"; name := None |}.

Definition xor_block (k : string) (b : list Z) : list Z :=
  map (fun x => Z.lxor x (Z.of_nat (String.length k))) b.

Definition serialize_num (j : json) : list Z :=
  match j with JNum z => [z] | _ => [] end.

Definition parse_num (bs : list Z) : option json :=
  match bs with [z] => Some (JNum z) | _ => None end.

Definition is_num (j : json) : Prop := exists z, j = JNum z.

Definition member_name (p : Props) : string :=
  match p with
  | POWER => "POWER" | MODE => "MODE" | TEMP_SET => "TEMP_SET"
  | TEMP_UNIT => "TEMP_UNIT" | FAN_SPEED => "FAN_SPEED"
  | FRESH_AIR => "FRESH_AIR" | XFAN => "XFAN" | ANION => "ANION"
  | SLEEP => "SLEEP" | LIGHT => "LIGHT" | SWING_HORIZ => "SWING_HORIZ"
  | SWING_VERT => "SWING_VERT" | QUIET => "QUIET" | TURBO => "TURBO"
  | STEADY_HEAT => "STEADY_HEAT" | POWER_SAVE => "POWER_SAVE"
  end.

Definition state0 : PropertyMap := [("POWER", PInt 1); ("MODE", PInt 4)].

(** Protocol calls that succeed ([nh_ok]) and whose send fails ([nh_fail]). *)
Definition nh_ok : NetHelper := {|
  nh_bind_device := fun _ => Ok "acbd1234";
  nh_request_state := fun _ _ _ => Ok state0;
  nh_send_state := fun pm _ _ => Ok pm
|}.

Definition nh_fail : NetHelper := {|
  nh_bind_device := fun _ => Err BindingTimeoutError;
  nh_request_state := fun _ _ _ => Err TimeoutError;
  nh_send_state := fun _ _ _ => Err TimeoutError
|}.

(** A network bind that returns the empty key. *)
Definition nh_empty_key : NetHelper := {|
  nh_bind_device := fun _ => Ok "";
  nh_request_state := fun _ _ _ => Ok state0;
  nh_send_state := fun pm _ _ => Ok pm
|}.

Definition bound0 : Device :=
  {| device_info := info0; device_key := Some "acbd1234"; _properties := None |}.

(** Responders of the test suite ([test_network.py]). *)
Definition ex_bindok : Session.Exchange := fun _ _ =>
  Some (Some (JObj [("t", JStr "bindok"); ("key", JStr "acbd1234")])).

Definition ex_silent : Session.Exchange := fun _ _ => None.

Definition ex_status : Session.Exchange := fun _ _ =>
  Some (Some (JObj [("cols", JArr [JStr "prop-a"; JStr "prop-b"]);
                    ("dat", JArr [JStr "val-a"; JStr "val-b"])])).

Definition ex_cmd_ack : Session.Exchange := fun _ _ =>
  Some (Some (JObj [("opt", JArr [JStr "prop-a"; JStr "prop-b"]);
                    ("val", JArr [JStr "val-a"; JStr "val-b"])])).

Definition props_ab : PropertyMap := [("prop-a", PStr "val-a"); ("prop-b", PStr "val-b")].

End Samples.

(* ================================================================== *)
(** * Proofs *)

Module CodecFacts.
Import Codec.

Section Padding.

Lemma pad_length (bs : list Z) :
  (length (pad bs) mod block_size = 0)%nat /\ (length bs < length (pad bs))%nat.
Proof.
  unfold pad, block_size. rewrite length_app, repeat_length.
  pose proof (Nat.mod_upper_bound (length bs) 16 ltac:(lia)).
  pose proof (Nat.div_mod_eq (length bs) 16).
  split; [| lia].
  replace (length bs + (16 - length bs mod 16))%nat
    with ((length bs / 16 + 1) * 16)%nat by lia.
  apply Nat.Div0.mod_mul.
Qed.

Lemma unpad_pad (bs : list Z) : unpad (pad bs) = Some bs.
Proof.
  unfold unpad, pad.
  set (n := (block_size - length bs mod block_size)%nat).
  assert (Hn : (1 <= n <= 16)%nat).
  { unfold n, block_size.
    pose proof (Nat.mod_upper_bound (length bs) 16 ltac:(lia)). lia. }
  rewrite rev_app_distr, rev_repeat.
  destruct n as [| m] eqn:En; [lia |].
  cbn [repeat app]. cbv zeta.
  set (c := Z.of_nat (S m)).
  change (c :: repeat c m ++ rev bs) with (repeat c (S m) ++ rev bs).
  change (bs ++ c :: repeat c m) with (bs ++ repeat c (S m)).
  unfold c; rewrite Nat2Z.id; fold c.
  rewrite firstn_app, repeat_length, Nat.sub_diag, firstn_O, app_nil_r,
    firstn_all2 by (rewrite repeat_length; lia).
  rewrite length_app, repeat_length.
  replace (forallb (Z.eqb c) (repeat c (S m))) with true.
  2:{ symmetry. apply forallb_forall. intros x Hx.
      apply repeat_spec in Hx. subst. apply Z.eqb_refl. }
  replace (1 <=? c) with true by (symmetry; apply Z.leb_le; unfold c; lia).
  replace (c <=? Z.of_nat block_size) with true
    by (symmetry; apply Z.leb_le; unfold c, block_size; lia).
  replace (S m <=? length bs + S m)%nat with true
    by (symmetry; apply Nat.leb_le; lia).
  replace (length bs + S m - S m)%nat with (length bs) by lia.
  rewrite firstn_app, Nat.sub_diag, firstn_O, app_nil_r, firstn_all.
  reflexivity.
Qed.


End Padding.

Section Blocks.

Definition full_block (b : list Z) : Prop := length b = block_size.

Lemma concat_full_length (bl : list (list Z)) :
  Forall full_block bl -> length (concat bl) = (block_size * length bl)%nat.
Proof.
  induction 1 as [| b bl Hb _ IH]; [reflexivity |].
  simpl. rewrite length_app, IH. unfold full_block in Hb. rewrite Hb. unfold block_size. lia.
Qed.

Lemma blocks_aux_nonempty (f : nat) (bs : list Z) :
  bs <> [] ->
  blocks_aux (S f) bs = firstn block_size bs :: blocks_aux f (skipn block_size bs).
Proof. destruct bs; [contradiction | reflexivity]. Qed.

Lemma blocks_aux_concat (bl : list (list Z)) (fuel : nat) :
  Forall full_block bl -> (length bl <= fuel)%nat ->
  blocks_aux fuel (concat bl) = bl.
Proof.
  revert fuel. induction bl as [| b bl IH]; intros fuel Hf Hle.
  - destruct fuel; reflexivity.
  - inversion Hf as [| ? ? Hb Hbl]; subst. unfold full_block in Hb.
    destruct fuel as [| f]; [simpl in Hle; lia |].
    simpl concat. rewrite blocks_aux_nonempty.
    2:{ intro E. apply (f_equal (@length Z)) in E.
        rewrite length_app, Hb in E. unfold block_size in E. simpl in E. lia. }
    rewrite firstn_app, <- Hb, Nat.sub_diag, firstn_O, app_nil_r, firstn_all.
    rewrite skipn_app, skipn_all2 by lia.
    rewrite Nat.sub_diag, skipn_O. simpl.
    rewrite IH; auto. simpl in Hle. lia.
Qed.

Lemma blocks_aux_split (fuel q : nat) (bs : list Z) :
  length bs = (block_size * q)%nat -> (q <= fuel)%nat ->
  Forall full_block (blocks_aux fuel bs) /\ concat (blocks_aux fuel bs) = bs.
Proof.
  revert q bs. induction fuel as [| f IH]; intros q bs Hlen Hq.
  - assert (q = 0%nat) by lia. subst. simpl in *.
    destruct bs; [| discriminate]. split; constructor.
  - destruct (list_eq_dec Z.eq_dec bs []) as [-> | Hne].
    + split; constructor.
    + rewrite blocks_aux_nonempty by exact Hne.
      destruct q as [| q']. { destruct bs; [contradiction | simpl in Hlen; lia]. }
      destruct (IH q' (skipn block_size bs)) as [HF HC].
      { rewrite length_skipn, Hlen. unfold block_size. lia. }
      { lia. }
      split.
      * constructor; [| exact HF].
        unfold full_block. rewrite length_firstn, Hlen.
        unfold block_size. lia.
      * cbn [concat]. rewrite HC. apply firstn_skipn.
Qed.

Lemma blocks_split (bs : list Z) (q : nat) :
  length bs = (block_size * q)%nat ->
  Forall full_block (blocks bs) /\ concat (blocks bs) = bs.
Proof.
  intro H. apply (blocks_aux_split _ q); [exact H |].
  rewrite H. unfold block_size. lia.
Qed.

End Blocks.

Section Roundtrip.

Variable block_encrypt block_decrypt : string -> list Z -> list Z.
Hypothesis block_encrypt_length :
  forall k b, length b = block_size -> length (block_encrypt k b) = block_size.
Hypothesis block_decrypt_encrypt :
  forall k b, length b = block_size -> block_decrypt k (block_encrypt k b) = b.

Lemma ecb_encrypt_shape (k : string) (bs : list Z) (q : nat) :
  length bs = (block_size * q)%nat ->
  Forall full_block (map (block_encrypt k) (blocks bs)) /\
  ecb_encrypt block_encrypt k bs = concat (map (block_encrypt k) (blocks bs)).
Proof.
  intro H. destruct (blocks_split bs q H) as [HF _].
  split; [| reflexivity].
  apply Forall_map. eapply Forall_impl; [| exact HF].
  intros b Hb. apply block_encrypt_length. exact Hb.
Qed.

Lemma ecb_decrypt_encrypt (k : string) (bs : list Z) (q : nat) :
  length bs = (block_size * q)%nat ->
  ecb_decrypt block_decrypt k (ecb_encrypt block_encrypt k bs) = bs.
Proof.
  intro H. destruct (blocks_split bs q H) as [HF HC].
  destruct (ecb_encrypt_shape k bs q H) as [HE ->].
  unfold ecb_decrypt, blocks.
  rewrite blocks_aux_concat; [| exact HE |].
  - rewrite map_map. rewrite map_ext_Forall with (g := fun b => b).
    + rewrite map_id. exact HC.
    + eapply Forall_impl; [| exact HF]. intros b Hb.
      apply block_decrypt_encrypt. exact Hb.
  - rewrite concat_full_length by exact HE. unfold block_size. lia.
Qed.

Lemma ecb_encrypt_length (k : string) (bs : list Z) (q : nat) :
  length bs = (block_size * q)%nat ->
  (length (ecb_encrypt block_encrypt k bs) mod block_size = 0)%nat.
Proof.
  intro H. destruct (ecb_encrypt_shape k bs q H) as [HE ->].
  rewrite concat_full_length by exact HE.
  rewrite Nat.mul_comm. apply Nat.Div0.mod_mul.
Qed.

Variable serialize : json -> list Z.
Variable parse : list Z -> option json.
Variable valid : json -> Prop.
Hypothesis parse_serialize : forall p, valid p -> parse (serialize p) = Some p.

Context {text : Type}.
Variable text_encode : list Z -> text.
Variable text_decode : text -> option (list Z).
Hypothesis text_decode_encode : forall bs, text_decode (text_encode bs) = Some bs.

(** C1: for every valid plaintext structure [p] and key [k], decrypting the
    encryption of [p] under [k] with the same key gives back [p]. *)
Theorem encrypt_decrypt_roundtrip (p : json) (k : string) :
  valid p ->
  decrypt block_decrypt parse text_decode
    (encrypt block_encrypt serialize text_encode p k) k = Ok p.
Proof.
  intro Hv. unfold decrypt, encrypt. rewrite text_decode_encode.
  destruct (pad_length (serialize p)) as [Hmod _].
  apply Nat.Div0.mod_divides in Hmod as [q Hq].
  rewrite (ecb_encrypt_length k _ q Hq). simpl.
  rewrite (ecb_decrypt_encrypt k _ q Hq).
  rewrite unpad_pad, parse_serialize by exact Hv.
  reflexivity.
Qed.

End Roundtrip.
End CodecFacts.

Module DictFacts.

Lemma dict_get_set_same (m : PropertyMap) (k : string) (v : pvalue) :
  dict_get (dict_set m k v) k = v.
Proof.
  unfold dict_get. induction m as [| [k' v'] m IH]; simpl.
  - rewrite String.eqb_refl. reflexivity.
  - destruct (String.eqb k' k) eqn:E; simpl.
    + rewrite E. reflexivity.
    + rewrite E. exact IH.
Qed.

Lemma dict_get_set_other (m : PropertyMap) (k k2 : string) (v : pvalue) :
  k2 <> k -> dict_get (dict_set m k v) k2 = dict_get m k2.
Proof.
  intro Hne. unfold dict_get. induction m as [| [k' v'] m IH]; simpl.
  - apply String.eqb_neq in Hne. rewrite String.eqb_sym, Hne. reflexivity.
  - destruct (String.eqb k' k) eqn:E; simpl.
    + apply String.eqb_eq in E. subst k'.
      apply String.eqb_neq in Hne. rewrite String.eqb_sym, Hne. reflexivity.
    + destruct (String.eqb k' k2); [reflexivity | exact IH].
Qed.

Lemma dict_set_absent (m : PropertyMap) (k : string) (v : pvalue) :
  ~ In k (map fst m) -> dict_set m k v = m ++ [(k, v)].
Proof.
  induction m as [| [k' v'] m IH]; intro Hn; simpl; [reflexivity |].
  simpl in Hn. destruct (String.eqb k' k) eqn:E.
  - apply String.eqb_eq in E. exfalso. apply Hn. left. exact E.
  - rewrite IH; [reflexivity |]. intro H. apply Hn. right. exact H.
Qed.

Lemma fold_dict_set_distinct (acc kvs : PropertyMap) :
  NoDup (map fst (acc ++ kvs)) ->
  fold_left (fun m kv => dict_set m (fst kv) (snd kv)) kvs acc = acc ++ kvs.
Proof.
  revert acc. induction kvs as [| [k v] kvs IH]; intros acc Hnd.
  - rewrite app_nil_r. reflexivity.
  - simpl. rewrite dict_set_absent.
    + rewrite IH.
      * rewrite <- app_assoc. reflexivity.
      * rewrite <- app_assoc. exact Hnd.
    + rewrite map_app in Hnd. simpl in Hnd.
      apply NoDup_remove_2 in Hnd. intro H. apply Hnd.
      apply in_or_app. left. exact H.
Qed.

(** A [dict] rebuilt from its own items is itself. *)
Lemma dict_of_pairs_dict (pm : PropertyMap) :
  NoDup (map fst pm) -> dict_of_pairs pm = pm.
Proof.
  intro H. unfold dict_of_pairs. apply (fold_dict_set_distinct [] pm). exact H.
Qed.

End DictFacts.

Module SessionFacts.
Import Session DictFacts.

Lemma strings_of_map (ns : list string) : strings_of (map JStr ns) = Some ns.
Proof. induction ns as [| n ns IH]; simpl; [| rewrite IH]; reflexivity. Qed.

Lemma values_of_map (vs : list pvalue) :
  values_of (map json_of_value vs) = Some vs.
Proof.
  induction vs as [| v vs IH]; simpl; [reflexivity |].
  rewrite IH. destruct v; reflexivity.
Qed.

Lemma zip_reply_ok (nf vf : string) (p : json) (ns : list string) (vs : list pvalue) :
  field nf p = Some (JArr (map JStr ns)) ->
  field vf p = Some (JArr (map json_of_value vs)) ->
  zip_reply nf vf p =
    if Nat.eqb (length ns) (length vs)
    then Ok (dict_of_pairs (combine ns vs)) else Err ProtocolError.
Proof.
  intros Hn Hv. unfold zip_reply. rewrite Hn, Hv, strings_of_map, values_of_map.
  reflexivity.
Qed.

Lemma combine_fst_snd (pm : PropertyMap) :
  combine (map fst pm) (map snd pm) = pm.
Proof. induction pm as [| [k v] pm IH]; simpl; [| rewrite IH]; reflexivity. Qed.

(** C2: [bind_device] returns the key string carried in the [bindok] reply
    (for the reply [{"t":"bindok","key":"acbd1234"}] it returns
    ["acbd1234"]), and raises the binding timeout error when no reply arrives
    within the window. *)
Theorem bind_device_result (ex : Exchange) (generic_key : string)
  (info : DeviceInfo) :
  (forall p k,
     ex generic_key (bind_request info) = Some (Some p) ->
     field "t" p = Some (JStr "bindok") -> field "key" p = Some (JStr k) ->
     bind_device ex generic_key info = Ok k) /\
  (ex generic_key (bind_request info) =
     Some (Some (JObj [("t", JStr "bindok"); ("key", JStr "acbd1234")])) ->
   bind_device ex generic_key info = Ok "acbd1234") /\
  (ex generic_key (bind_request info) = None ->
   bind_device ex generic_key info = Err BindingTimeoutError).
Proof.
  split; [| split].
  - intros p k Hex Ht Hk. unfold bind_device, recv_pack.
    rewrite Hex. simpl. rewrite Ht, Hk. reflexivity.
  - intro Hex. unfold bind_device, recv_pack. rewrite Hex. reflexivity.
  - intro Hex. unfold bind_device, recv_pack. rewrite Hex. reflexivity.
Qed.

(** C3: once the status reply [p] has arrived and decrypted, [request_state]
    zips its [cols] name list with its [dat] value list by position, and
    fails with [ProtocolError] when the lists differ in length or the reply
    names a type other than [dat]. *)
Theorem request_state_zip (ex : Exchange) (names : list string)
  (info : DeviceInfo) (key : string) (p : json) :
  ex key (status_request names info) = Some (Some p) ->
  (forall ns vs,
     type_is "dat" p = true ->
     field "cols" p = Some (JArr (map JStr ns)) ->
     field "dat" p = Some (JArr (map json_of_value vs)) ->
     length ns = length vs ->
     request_state ex names info key = Ok (dict_of_pairs (combine ns vs))) /\
  (forall ns vs,
     field "cols" p = Some (JArr (map JStr ns)) ->
     field "dat" p = Some (JArr (map json_of_value vs)) ->
     length ns <> length vs ->
     request_state ex names info key = Err ProtocolError) /\
  (type_is "dat" p = false ->
     request_state ex names info key = Err ProtocolError).
Proof.
  intro Hex. unfold request_state, recv_pack. rewrite Hex. simpl.
  split; [| split].
  - intros ns vs Ht Hn Hv Hlen. rewrite Ht, (zip_reply_ok _ _ _ ns vs Hn Hv).
    apply Nat.eqb_eq in Hlen. rewrite Hlen. reflexivity.
  - intros ns vs Hn Hv Hlen. destruct (type_is "dat" p); [| reflexivity].
    rewrite (zip_reply_ok _ _ _ ns vs Hn Hv).
    apply Nat.eqb_neq in Hlen. rewrite Hlen. reflexivity.
  - intro Ht. rewrite Ht. reflexivity.
Qed.

(** C4: once the acknowledgment [ack] of a [cmd] request has arrived and
    decrypted, [send_state] returns the map zipping its [opt] name list with
    its [val] value list by position; when the acknowledgment echoes the
    names and values sent, the result is the input map. *)
Theorem send_state_zip (ex : Exchange) (pm : PropertyMap) (info : DeviceInfo)
  (key : string) (ack : json) :
  ex key (cmd_request pm) = Some (Some ack) ->
  (forall ns vs,
     field "opt" ack = Some (JArr (map JStr ns)) ->
     field "val" ack = Some (JArr (map json_of_value vs)) ->
     length ns = length vs ->
     send_state ex pm info key = Ok (dict_of_pairs (combine ns vs))) /\
  (NoDup (map fst pm) ->
   field "opt" ack = Some (JArr (map (fun kv => JStr (fst kv)) pm)) ->
   field "val" ack = Some (JArr (map (fun kv => json_of_value (snd kv)) pm)) ->
   send_state ex pm info key = Ok pm).
Proof.
  intro Hex. unfold send_state, recv_pack. rewrite Hex. simpl. split.
  - intros ns vs Hn Hv Hlen. rewrite (zip_reply_ok _ _ _ ns vs Hn Hv).
    apply Nat.eqb_eq in Hlen. rewrite Hlen. reflexivity.
  - intros Hnd Hn Hv.
    rewrite <- (map_map fst JStr) in Hn.
    rewrite <- (map_map snd json_of_value) in Hv.
    rewrite (zip_reply_ok _ _ _ _ _ Hn Hv), !length_map, Nat.eqb_refl.
    rewrite combine_fst_snd, dict_of_pairs_dict by exact Hnd. reflexivity.
Qed.

End SessionFacts.

Module FacadeFacts.
Import Facade DictFacts.

Section Facade.

Variable Props_value : Props -> string.
Variable nh : NetHelper.

Lemma get_property_props_dict (name : Props) (d : Device) :
  get_property Props_value name d = dict_get (props_dict d) (Props_value name).
Proof.
  unfold get_property, props_dict.
  destruct (_properties d) as [[| kv m] |]; reflexivity.
Qed.

(** [set_property] run step by step: the dict initialisation, the
    comparison, the write and the send. *)
Lemma set_property_unfold (name : Props) (v : pvalue) (d : Device) :
  set_property Props_value nh name v d =
    let key := Props_value name in
    let m := props_dict d in
    if py_eq (dict_get m key) v
    then ([], set_properties d (Some m), Ok tt)
    else ([CallSendState [(key, v)] (device_info d) (device_key d)],
          set_properties d (Some (dict_set m key v)),
          to_unit (nh_send_state nh [(key, v)] (device_info d) (device_key d))).
Proof.
  destruct d as [info key props].
  destruct props as [[| kv m] |];
    cbv [set_property bindM get_self put_self ret net set_properties props_dict
         truthy_props device_info device_key _properties];
    destruct (py_eq _ v); try reflexivity;
    destruct (nh_send_state nh _ _ _); reflexivity.
Qed.

(** C5: on a device that was never bound, [update_state] raises
    [DeviceNotBoundError] without any protocol call, but [set_property]
    (here as [device.power = True] calls it) raises nothing of its own: it
    writes the cache and calls [send_state] with the key [None]. *)
Theorem unbound_set_property_reaches_send_state (info : DeviceInfo) (name : Props) :
  let d := new_Device info in
  update_state Props_value nh d = ([], d, Err DeviceNotBoundError) /\
  set_property Props_value nh name (PInt 1) d =
    ([CallSendState [(Props_value name, PInt 1)] info None],
     set_properties d (Some [(Props_value name, PInt 1)]),
     to_unit (nh_send_state nh [(Props_value name, PInt 1)] info None)).
Proof.
  split; [reflexivity |].
  rewrite set_property_unfold. reflexivity.
Qed.

(** C6 (as the code decides it): [bind] with a non-empty key makes no
    protocol call and stores the key as given; with no key, or with the empty
    key, it runs the network bind and stores the key it returns. *)
Theorem bind_key_or_network (d : Device) :
  (forall k, k <> "" ->
     bind nh (Some k) d = ([], set_device_key d (Some k), Ok tt)) /\
  (forall key, key = None \/ key = Some "" ->
     bind nh key d =
       ([CallBindDevice (device_info d)],
        match nh_bind_device nh (device_info d) with
        | Ok k => set_device_key d (Some k)
        | Err _ => d
        end,
        to_unit (nh_bind_device nh (device_info d)))).
Proof.
  split.
  - intros k Hk. unfold bind, bindM, get_self, put_self. cbn.
    apply String.eqb_neq in Hk. rewrite Hk. reflexivity.
  - intros key Hkey.
    assert (Ht : truthy_key key = false) by (destruct Hkey; subst; reflexivity).
    unfold bind, bindM, get_self, put_self, net. cbn. rewrite Ht.
    destruct (nh_bind_device nh (device_info d)); reflexivity.
Qed.

(** C7: on a bound device, [update_state] makes exactly one [request_state]
    call, for the wire name of every member of [Props], and replaces the
    cache by the map it returns; [get_property] then reads that map. *)
Theorem update_state_refreshes (d : Device) (k : string) (m : PropertyMap) :
  device_key d = Some k -> k <> "" ->
  nh_request_state nh (map Props_value all_Props) (device_info d) (Some k) = Ok m ->
  update_state Props_value nh d =
    ([CallRequestState (map Props_value all_Props) (device_info d) (Some k)],
     set_properties d (Some m), Ok tt) /\
  (forall name,
     get_property Props_value name (set_properties d (Some m)) =
     dict_get m (Props_value name)).
Proof.
  intros Hkey Hk Hreq. split.
  - destruct d as [info key props]. cbv [device_key] in Hkey. subst key.
    cbv [device_info] in Hreq.
    cbv [update_state bindM get_self put_self net raise set_properties
         device_info device_key _properties truthy_key].
    apply String.eqb_neq in Hk. rewrite Hk. cbv [negb]. rewrite Hreq.
    reflexivity.
  - intro name. rewrite get_property_props_dict. reflexivity.
Qed.

(** C8 (as the code decides it): when the cached value for [name] already
    equals [v] (Python [==]), [set_property] makes no protocol call and leaves
    the cache as it was, except that an absent cache ([None]) becomes the
    empty dict; otherwise it writes [v] for [name] into the cache and sends
    exactly the one-entry map [{name: v}]. *)
Theorem set_property_skip_or_send (d : Device) (name : Props) (v : pvalue) :
  let key := Props_value name in
  (py_eq (get_property Props_value name d) v = true ->
     set_property Props_value nh name v d =
       ([], set_properties d (Some (props_dict d)), Ok tt) /\
     (_properties d <> None -> set_properties d (Some (props_dict d)) = d)) /\
  (py_eq (get_property Props_value name d) v = false ->
     set_property Props_value nh name v d =
       ([CallSendState [(key, v)] (device_info d) (device_key d)],
        set_properties d (Some (dict_set (props_dict d) key v)),
        to_unit (nh_send_state nh [(key, v)] (device_info d) (device_key d)))).
Proof.
  cbv zeta. rewrite get_property_props_dict, set_property_unfold. cbv zeta.
  split; intro Heq; rewrite Heq; [split; [reflexivity |] | reflexivity].
  intro Hp. destruct d as [info key props]. cbv [props_dict _properties] in *.
  destruct props; [reflexivity | contradiction].
Qed.

(** C9: [set_property] changes no cached entry but the one for [name]; when
    it does not skip, the new value is in the cache whatever [send_state]
    then does, and a failing send leaves it there. *)
Theorem set_property_frame (d : Device) (name : Props) (v : pvalue) :
  let key := Props_value name in
  let '(calls, d', r) := set_property Props_value nh name v d in
  (forall k, k <> key -> dict_get (props_dict d') k = dict_get (props_dict d) k) /\
  (py_eq (get_property Props_value name d) v = false ->
     dict_get (props_dict d') key = v /\
     calls = [CallSendState [(key, v)] (device_info d) (device_key d)] /\
     (forall e, nh_send_state nh [(key, v)] (device_info d) (device_key d) = Err e ->
        r = Err e)).
Proof.
  cbv zeta. rewrite get_property_props_dict, set_property_unfold. cbv zeta.
  destruct (py_eq (dict_get (props_dict d) (Props_value name)) v).
  - split; [| discriminate]. intros k Hk. reflexivity.
  - split.
    + intros k Hk. cbv [props_dict set_properties _properties].
      apply dict_get_set_other. exact Hk.
    + intros _. split; [| split; [reflexivity |]].
      * cbv [props_dict set_properties _properties]. apply dict_get_set_same.
      * intros e He. rewrite He. reflexivity.
Qed.

(** C10: on a freshly constructed device, [get_property] gives [None] for
    every name, every boolean accessor reads [False], and every integer
    accessor raises [TypeError] ([int(None)]). *)
Theorem fresh_device_reads (info : DeviceInfo) :
  let d := new_Device info in
  (forall name, get_property Props_value name d = PNone) /\
  Forall (fun acc => acc d = false) (bool_accessors Props_value) /\
  Forall (fun acc => acc d = Err TypeError) (int_accessors Props_value).
Proof.
  split; [intro name; reflexivity |].
  split; repeat constructor.
Qed.

(** ** Further properties of the facade *)

Lemma py_eq_refl (v : pvalue) : py_eq v v = true.
Proof.
  destruct v; simpl;
    [reflexivity | apply Bool.eqb_reflx | apply Z.eqb_refl | apply String.eqb_refl].
Qed.


(** After [set_property] the cache is a dict and holds a value [==] to the
    one written, whatever the send did. *)
Lemma set_property_post (name : Props) (v : pvalue) (d : Device) :
  let '(_, d', _) := set_property Props_value nh name v d in
  _properties d' = Some (props_dict d') /\
  py_eq (get_property Props_value name d') v = true.
Proof.
  rewrite set_property_unfold. cbv zeta.
  destruct (py_eq (dict_get (props_dict d) (Props_value name)) v) eqn:E;
    (split; [reflexivity |]); rewrite get_property_props_dict;
    cbv [props_dict set_properties _properties].
  - exact E.
  - rewrite dict_get_set_same. apply py_eq_refl.
Qed.






(** X4: repeating [set_property] with the same value makes no call and
    changes nothing, also when the first call's send failed: the optimistic
    cache write makes the retry a no-op. *)
Theorem set_property_repeat (name : Props) (v : pvalue) (d : Device) :
  let '(_, d1, _) := set_property Props_value nh name v d in
  set_property Props_value nh name v d1 = ([], d1, Ok tt).
Proof.
  pose proof (set_property_post name v d) as Hp.
  destruct (set_property Props_value nh name v d) as [[c d1] r].
  destruct Hp as [Hd Heq].
  rewrite get_property_props_dict in Heq.
  rewrite set_property_unfold. cbv zeta. rewrite Heq.
  rewrite <- Hd. destruct d1. reflexivity.
Qed.

(** X5: when the [request_state] call of [update_state] raises, the error
    propagates and the device, its cache included, is left as it was. *)
Theorem update_state_failure_keeps_cache (d : Device) (k : string) (e : error) :
  device_key d = Some k -> k <> "" ->
  nh_request_state nh (map Props_value all_Props) (device_info d) (Some k) = Err e ->
  update_state Props_value nh d =
    ([CallRequestState (map Props_value all_Props) (device_info d) (Some k)], d, Err e).
Proof.
  intros Hkey Hk Hreq.
  destruct d as [info key props]. cbv [device_key] in Hkey. subst key.
  cbv [device_info] in Hreq.
  cbv [update_state bindM get_self put_self net raise set_properties
       device_info device_key _properties truthy_key].
  apply String.eqb_neq in Hk. rewrite Hk. cbv [negb]. rewrite Hreq.
  reflexivity.
Qed.

(** X6: [await device.bind(); await device.update_state()] without a key:
    a non-empty key from the network bind is the key of the state request;
    an empty one leaves the device unusable, [update_state] raising
    [DeviceNotBoundError] without a call. *)
Theorem bind_then_update_state (d : Device) (k : string) :
  nh_bind_device nh (device_info d) = Ok k ->
  (k <> "" ->
   bindM (bind nh None) (fun _ => update_state Props_value nh) d =
     ([CallBindDevice (device_info d);
       CallRequestState (map Props_value all_Props) (device_info d) (Some k)],
      match nh_request_state nh (map Props_value all_Props) (device_info d) (Some k) with
      | Ok m => set_properties (set_device_key d (Some k)) (Some m)
      | Err _ => set_device_key d (Some k)
      end,
      to_unit (nh_request_state nh (map Props_value all_Props) (device_info d) (Some k)))) /\
  (k = "" ->
   bindM (bind nh None) (fun _ => update_state Props_value nh) d =
     ([CallBindDevice (device_info d)], set_device_key d (Some ""),
      Err DeviceNotBoundError)).
Proof.
  intro Hb. destruct d as [info key props]. cbv [device_info] in Hb.
  split.
  - intro Hk.
    cbv [bind update_state bindM get_self put_self net raise set_properties
         set_device_key device_info device_key _properties truthy_key ret].
    rewrite Hb. apply String.eqb_neq in Hk. rewrite Hk. cbv [negb].
    destruct (nh_request_state nh _ _ _); reflexivity.
  - intro Hk. subst k.
    cbv [bind update_state bindM get_self put_self net raise set_properties
         set_device_key device_info device_key _properties truthy_key ret].
    rewrite Hb. reflexivity.
Qed.

End Facade.
End FacadeFacts.

(** * Instances at concrete inputs *)

Module Witnesses.
Import Samples Facade.

Lemma xor_block_length (k : string) (b : list Z) :
  length b = Codec.block_size -> length (xor_block k b) = Codec.block_size.
Proof. intro H. unfold xor_block. rewrite length_map. exact H. Qed.

Lemma xor_block_inverse (k : string) (b : list Z) :
  length b = Codec.block_size -> xor_block k (xor_block k b) = b.
Proof.
  intros _. unfold xor_block. rewrite map_map.
  rewrite <- (map_id b) at 2. apply map_ext. intro x.
  rewrite Z.lxor_assoc, Z.lxor_nilpotent, Z.lxor_0_r. reflexivity.
Qed.

(** The round trip at the structure [7] under the key ["a3K8Bx"]. *)
Lemma encrypt_decrypt_roundtrip_witness :
  Codec.decrypt xor_block parse_num (fun t : list Z => Some t)
    (Codec.encrypt xor_block serialize_num (fun bs : list Z => bs) (JNum 7) "a3K8Bx")
    "a3K8Bx" = Ok (JNum 7).
Proof.
  apply (CodecFacts.encrypt_decrypt_roundtrip xor_block xor_block
           xor_block_length xor_block_inverse serialize_num parse_num is_num).
  - intros p [z ->]. reflexivity.
  - intro bs. reflexivity.
  - exists 7. reflexivity.
Defined.

Lemma bind_device_result_witness :
  Session.bind_device ex_bindok "generic" info0 = Ok "acbd1234" /\
  Session.bind_device ex_silent "generic" info0 = Err BindingTimeoutError.
Proof.
  split.
  - apply (proj1 (proj2 (SessionFacts.bind_device_result ex_bindok "generic" info0))).
    reflexivity.
  - apply (proj2 (proj2 (SessionFacts.bind_device_result ex_silent "generic" info0))).
    reflexivity.
Defined.

Lemma request_state_zip_witness :
  Session.request_state ex_status ["prop-a"; "prop-b"] info0 "acbd1234" = Ok props_ab.
Proof.
  rewrite (proj1 (SessionFacts.request_state_zip ex_status ["prop-a"; "prop-b"]
                    info0 "acbd1234" _ eq_refl)
             ["prop-a"; "prop-b"] [PStr "val-a"; PStr "val-b"]);
    reflexivity.
Defined.

Lemma send_state_zip_witness :
  Session.send_state ex_cmd_ack props_ab info0 "acbd1234" = Ok props_ab.
Proof.
  apply (proj2 (SessionFacts.send_state_zip ex_cmd_ack props_ab info0 "acbd1234" _ eq_refl)).
  - apply NoDup_cons; [simpl; intros [H | []]; discriminate |].
    apply NoDup_cons; [intros [] | apply NoDup_nil].
  - reflexivity.
  - reflexivity.
Defined.

Lemma bind_key_or_network_witness :
  Facade.bind nh_ok (Some "acbd1234") (new_Device info0) =
    ([], set_device_key (new_Device info0) (Some "acbd1234"), Ok tt) /\
  fst (fst (Facade.bind nh_ok None (new_Device info0))) = [CallBindDevice info0].
Proof.
  split.
  - apply (proj1 (FacadeFacts.bind_key_or_network nh_ok (new_Device info0))).
    discriminate.
  - rewrite (proj2 (FacadeFacts.bind_key_or_network nh_ok (new_Device info0)) None).
    + reflexivity.
    + left. reflexivity.
Defined.

(** [bind("")]: a key is supplied, yet the network bind runs. *)
Lemma bind_empty_key_calls_network :
  fst (fst (Facade.bind nh_ok (Some "") (new_Device info0))) = [CallBindDevice info0].
Proof. vm_compute. reflexivity. Qed.

Lemma update_state_refreshes_witness :
  update_state member_name nh_ok bound0 =
    ([CallRequestState (map member_name all_Props) info0 (Some "acbd1234")],
     set_properties bound0 (Some state0), Ok tt) /\
  get_property member_name MODE (set_properties bound0 (Some state0)) = PInt 4.
Proof.
  destruct (FacadeFacts.update_state_refreshes member_name nh_ok bound0 "acbd1234" state0)
    as [H1 H2].
  - reflexivity.
  - discriminate.
  - reflexivity.
  - split; [exact H1 | rewrite H2; reflexivity].
Defined.

(** [set_property(POWER, None)] on a fresh device: the cached value is
    already [None], no call is made, and yet [_properties] goes from [None]
    to [{}]. *)
Lemma set_property_none_replaces_cache :
  let d := new_Device info0 in
  py_eq (get_property member_name POWER d) PNone = true /\
  fst (fst (set_property member_name nh_ok POWER PNone d)) = [] /\
  _properties (snd (fst (set_property member_name nh_ok POWER PNone d))) <> _properties d.
Proof.
  split; [reflexivity | split; [reflexivity |]]. vm_compute. discriminate.
Qed.

Lemma set_property_skip_or_send_witness :
  set_property member_name nh_ok POWER (PInt 1) (new_Device info0) =
    ([CallSendState [("POWER", PInt 1)] info0 None],
     set_properties (new_Device info0) (Some [("POWER", PInt 1)]), Ok tt).
Proof.
  apply (proj2 (FacadeFacts.set_property_skip_or_send member_name nh_ok
                  (new_Device info0) POWER (PInt 1))).
  reflexivity.
Defined.

Lemma set_property_frame_witness :
  let d := {| device_info := info0; device_key := Some "acbd1234";
              _properties := Some state0 |} in
  let '(calls, d', r) := set_property member_name nh_fail POWER (PInt 0) d in
  dict_get (props_dict d') "POWER" = PInt 0 /\
  dict_get (props_dict d') "MODE" = PInt 4 /\ r = Err TimeoutError.
Proof.
  pose proof (FacadeFacts.set_property_frame member_name nh_fail
                {| device_info := info0; device_key := Some "acbd1234";
                   _properties := Some state0 |} POWER (PInt 0)) as H.
  cbv zeta in *.
  destruct (set_property member_name nh_fail POWER (PInt 0) _) as [[calls d'] r].
  destruct H as [Hother Hsend].
  destruct (Hsend eq_refl) as [Hv [_ Hr]].
  split; [exact Hv | split].
  - rewrite Hother; [reflexivity | simpl; discriminate].
  - apply Hr. reflexivity.
Defined.





Lemma update_state_failure_keeps_cache_witness :
  update_state member_name nh_fail bound0 =
    ([CallRequestState (map member_name all_Props) info0 (Some "acbd1234")],
     bound0, Err TimeoutError).
Proof.
  apply (FacadeFacts.update_state_failure_keeps_cache member_name nh_fail
           bound0 "acbd1234" TimeoutError).
  - reflexivity.
  - discriminate.
  - reflexivity.
Defined.

Lemma bind_then_update_state_witness :
  fst (fst (bindM (Facade.bind nh_ok None) (fun _ => update_state member_name nh_ok)
              (new_Device info0))) =
    [CallBindDevice info0;
     CallRequestState (map member_name all_Props) info0 (Some "acbd1234")] /\
  bindM (Facade.bind nh_empty_key None) (fun _ => update_state member_name nh_empty_key)
    (new_Device info0) =
    ([CallBindDevice info0], set_device_key (new_Device info0) (Some ""),
     Err DeviceNotBoundError).
Proof.
  split.
  - rewrite (proj1 (FacadeFacts.bind_then_update_state member_name nh_ok
                      (new_Device info0) "acbd1234" eq_refl)).
    + reflexivity.
    + discriminate.
  - apply (proj2 (FacadeFacts.bind_then_update_state member_name nh_empty_key
                    (new_Device info0) "" eq_refl)).
    reflexivity.
Defined.

End Witnesses.
